(** * qerr capture: the dataflow check and the packet correlation loop

    A shallow embedding of [src/qerr/capture_qerr.py]: [verify_dataflow],
    the body of the [while True] loop of [collect_data], and the part of
    [start] that runs them and saves the tables.

    Conventions of the embedding.
    - A naive [datetime.datetime] is its number of microseconds on the local
      time line; a [datetime.timedelta] keeps Python's normalised fields
      [days], [seconds] and [microseconds].
    - A Python [dict] with string keys is a [gmap string _]; [set(...)] of
      keys is a [gset string].
    - A [pandas.DataFrame] is its column labels and the ordered list of its
      rows; a row is the dict that was assigned to it, a key that is absent
      standing for a missing cell.
    - The serial stream is an input: what each [ubr.read()] returns and what
      the wall clock shows right after it.  [print] is not modelled. *)

From stdpp Require Import gmap strings list fin_maps.

Open Scope Z_scope.

(** ** Wall-clock time *)

Abbreviation datetime := Z.

Record timedelta := Timedelta {
  days : Z;
  seconds : Z;
  microseconds : Z
}.

Definition US_PER_SECOND : Z := 1000000.
Definition US_PER_DAY : Z := 86400000000.

(** Normalisation as done by the [timedelta] constructor:
    [0 <= seconds < 86400] and [0 <= microseconds < 1000000], the sign
    lives in [days]. *)
Definition timedelta_of_us (us : Z) : timedelta :=
  {| days := us `div` US_PER_DAY;
     seconds := (us `mod` US_PER_DAY) `div` US_PER_SECOND;
     microseconds := us `mod` US_PER_SECOND |}.

Definition timedelta_us (td : timedelta) : Z :=
  days td * US_PER_DAY + seconds td * US_PER_SECOND + microseconds td.

(** [datetime.__sub__] *)
Definition datetime_sub (a b : datetime) : timedelta := timedelta_of_us (a - b).

(** [timedelta.__neg__] *)
Definition timedelta_neg (td : timedelta) : timedelta :=
  timedelta_of_us (- timedelta_us td).

(** [timedelta.__abs__]: negate when [days] is negative. *)
Definition timedelta_abs (td : timedelta) : timedelta :=
  if bool_decide (days td < 0) then timedelta_neg td else td.

(** ** Decoded messages and rows *)

(** What the loop reads from a parsed [UBXMessage]: its [identity] and its
    attributes (all integers for the two message types of interest). *)
Record UBXMessage := {
  identity : string;
  getattr : string → Z
}.

Inductive value :=
| VDatetime (t : datetime)
| VInt (n : Z).

#[global] Instance value_eq_dec : EqDecision value.
Proof. solve_decision. Defined.

Abbreviation row := (gmap string value).

(** The dict stored in [packet_cache['NAV-TIMEUTC']['parsed_data']]. *)
Definition nav_timeutc_data (pkt_unix_timestamp : datetime) (parsed_data : UBXMessage) : row :=
  list_to_map [
    ("pkt_unix_timestamp_NAV-TIMEUTC", VDatetime pkt_unix_timestamp);
    ("iTOW (ms)", VInt (getattr parsed_data "iTOW"));
    ("tAcc (ns)", VInt (getattr parsed_data "tAcc"));
    ("year", VInt (getattr parsed_data "year"));
    ("month", VInt (getattr parsed_data "month"));
    ("day", VInt (getattr parsed_data "day"));
    ("hour", VInt (getattr parsed_data "hour"));
    ("min", VInt (getattr parsed_data "min"));
    ("sec", VInt (getattr parsed_data "sec"));
    ("validTOW_flag", VInt (getattr parsed_data "validTOW"));
    ("validWKN_flag", VInt (getattr parsed_data "validWKN"));
    ("validUTC_flag", VInt (getattr parsed_data "validUTC"));
    ("utcStandard_NAV-TIMEUTC", VInt (getattr parsed_data "utcStandard"))
  ].

(** The dict stored in [packet_cache['TIM-TP']['parsed_data']]. *)
Definition tim_tp_data (pkt_unix_timestamp : datetime) (parsed_data : UBXMessage) : row :=
  list_to_map [
    ("pkt_unix_timestamp_TIM-TP", VDatetime pkt_unix_timestamp);
    ("towMS (ms)", VInt (getattr parsed_data "towMS"));
    ("towSubMS", VInt (getattr parsed_data "towSubMS"));
    ("qErr (ps)", VInt (getattr parsed_data "qErr"));
    ("week (weeks)", VInt (getattr parsed_data "week"));
    ("timeBase_flag", VInt (getattr parsed_data "timeBase"));
    ("utc_flag", VInt (getattr parsed_data "utc"));
    ("raim_flag", VInt (getattr parsed_data "raim"));
    ("qErrInvalid_flag", VInt (getattr parsed_data "qErrInvalid"));
    ("timeRefGnss", VInt (getattr parsed_data "timeRefGnss"));
    ("utcStandard_TIM-TP", VInt (getattr parsed_data "utcStandard"))
  ].

(** ** The packet cache and the tables *)

Record CacheEntry := {
  valid : bool;
  timestamp : option datetime;
  parsed_data : option row
}.

(** [packet_cache]: one entry per key. *)
Record PacketCache := {
  pc_NAV_TIMEUTC : CacheEntry;
  pc_TIM_TP : CacheEntry
}.

Definition empty_entry : CacheEntry :=
  {| valid := false; timestamp := None; parsed_data := None |}.

(** The dict literal at the top of [collect_data]. *)
Definition initial_cache : PacketCache :=
  {| pc_NAV_TIMEUTC := empty_entry; pc_TIM_TP := empty_entry |}.

Record DataFrame := {
  columns : list string;
  rows : list row
}.

(** [df.loc[len(df)] = d]: the index is [0 .. len(df)-1], so the label
    [len(df)] is new and the assignment adds one row at the end. *)
Definition df_append (df : DataFrame) (d : row) : DataFrame :=
  {| columns := columns df; rows := rows df ++ [d] |}.

(** [df_refs]: one table per key. *)
Record DfRefs := {
  df_NAV_TIMEUTC : DataFrame;
  df_TIM_TP : DataFrame;
  df_MERGED : DataFrame
}.

(** Assigning [None] to a new row gives a row of missing cells. *)
Definition row_of (d : option row) : row := default ∅ d.

(** ** Exceptions *)

Inductive exn :=
| KeyboardInterrupt
| KeyError (extra missing : gset string)
| TypeError
| Exception (packet_id_flags : gmap string bool).

Inductive result (A : Type) :=
| Ok (a : A)
| Raise (e : exn).
Arguments Ok {A} a.
Arguments Raise {A} e.

(** ** [verify_dataflow] *)

Definition initial_flags : gmap string bool :=
  list_to_map [("NAV-TIMEUTC", false); ("TIM-TP", false)].

(** [for packet_id in packet_id_flags.keys(): if identity == packet_id: ...] *)
Definition mark_identity (flags : gmap string bool) (m : UBXMessage) : gmap string bool :=
  if decide (is_Some (flags !! identity m)) then <[identity m := true]> flags else flags.

(** [all(packet_id_flags.values())] *)
Definition all_flags (flags : gmap string bool) : bool :=
  forallb (λ kv, kv.2) (map_to_list flags).

(** The [for i in range(n)] loop, entered at read number [i]; a success
    carries the number of reads made so far. *)
Fixpoint verify_loop (stream : nat → option UBXMessage) (n : nat) (i : nat)
    (flags : gmap string bool) : result nat :=
  match n with
  | O => Raise (Exception flags)
  | S n' =>
    let flags' :=
      match stream i with
      | Some parsed => mark_identity flags parsed
      | None => flags
      end in
    if all_flags flags' then Ok (S i) else verify_loop stream n' (S i) flags'
  end.

Definition verify_dataflow (stream : nat → option UBXMessage) : result nat :=
  verify_loop stream 1000%nat 0%nat initial_flags.

(** ** [collect_data] *)

(** Lines 84-120: store the packet in the cache. *)
Definition cache_packet (packet_cache : PacketCache) (parsed : option UBXMessage)
    (pkt_unix_timestamp : datetime) : PacketCache :=
  match parsed with
  | Some m =>
    if decide (identity m = "NAV-TIMEUTC") then
      {| pc_NAV_TIMEUTC :=
           {| valid := true;
              timestamp := Some pkt_unix_timestamp;
              parsed_data := Some (nav_timeutc_data pkt_unix_timestamp m) |};
         pc_TIM_TP := pc_TIM_TP packet_cache |}
    else if decide (identity m = "TIM-TP") then
      {| pc_NAV_TIMEUTC := pc_NAV_TIMEUTC packet_cache;
         pc_TIM_TP :=
           {| valid := true;
              timestamp := Some pkt_unix_timestamp;
              parsed_data := Some (tim_tp_data pkt_unix_timestamp m) |} |}
    else packet_cache
  | None => packet_cache
  end.

(** [packet_cache[k]['valid'] = False]: the other two fields stay. *)
Definition invalidate (e : CacheEntry) : CacheEntry :=
  {| valid := false; timestamp := timestamp e; parsed_data := parsed_data e |}.

(** [time_diff.seconds * 1e6 + time_diff.microseconds]; both terms are
    integers below 2^53, so the float arithmetic is exact. *)
Definition microsec_time_diff (t_tim t_nav : datetime) : Z :=
  let time_diff := timedelta_abs (datetime_sub t_tim t_nav) in
  seconds time_diff * 1000000 + microseconds time_diff.

(** [{**tim, **nav}]: on a common key the second dict wins. *)
Definition merge_data (d_tim d_nav : row) : row := d_nav ∪ d_tim.

(** Lines 123-165: the check that runs once the packet is cached. *)
Definition correlate (packet_cache : PacketCache) (df_refs : DfRefs)
    : DfRefs * result PacketCache :=
  let tim := pc_TIM_TP packet_cache in
  let nav := pc_NAV_TIMEUTC packet_cache in
  if valid tim && valid nav then
    match timestamp tim, timestamp nav with
    | Some t_tim, Some t_nav =>
      if bool_decide (microsec_time_diff t_tim t_nav < 1000000) then
        match parsed_data tim, parsed_data nav with
        | Some d_tim, Some d_nav =>
          let merged_data := merge_data d_tim d_nav in
          let merged_keys : gset string := dom merged_data in
          let schema_keys : gset string := list_to_set (columns (df_MERGED df_refs)) in
          if decide (merged_keys ≠ schema_keys) then
            (df_refs,
             Raise (KeyError (merged_keys ∖ schema_keys) (schema_keys ∖ merged_keys)))
          else
            ({| df_NAV_TIMEUTC := df_append (df_NAV_TIMEUTC df_refs) d_nav;
                df_TIM_TP := df_append (df_TIM_TP df_refs) d_tim;
                df_MERGED := df_append (df_MERGED df_refs) merged_data |},
             Ok {| pc_NAV_TIMEUTC := invalidate nav; pc_TIM_TP := invalidate tim |})
        | _, _ => (df_refs, Raise TypeError)
        end
      else if bool_decide (t_tim < t_nav) then
        ({| df_NAV_TIMEUTC := df_NAV_TIMEUTC df_refs;
            df_TIM_TP := df_append (df_TIM_TP df_refs) (row_of (parsed_data tim));
            df_MERGED := df_MERGED df_refs |},
         Ok {| pc_NAV_TIMEUTC := nav; pc_TIM_TP := invalidate tim |})
      else
        ({| df_NAV_TIMEUTC := df_append (df_NAV_TIMEUTC df_refs) (row_of (parsed_data nav));
            df_TIM_TP := df_TIM_TP df_refs;
            df_MERGED := df_MERGED df_refs |},
         Ok {| pc_NAV_TIMEUTC := invalidate nav; pc_TIM_TP := pc_TIM_TP packet_cache |})
    | _, _ => (df_refs, Raise TypeError)
    end
  else (df_refs, Ok packet_cache).

(** One [ubr.read()] together with the [datetime.now()] that follows it. *)
Abbreviation read := (option UBXMessage * datetime)%type.

(** One pass through the body of [while True]. *)
Definition loop_body (packet_cache : PacketCache) (df_refs : DfRefs) (r : read)
    : DfRefs * result PacketCache :=
  correlate (cache_packet packet_cache r.1 r.2) df_refs.

(** The loop over the reads that complete; the state after the last one,
    or the exception that stopped it, with the tables as they are then. *)
Fixpoint run_loop (packet_cache : PacketCache) (df_refs : DfRefs) (reads : list read)
    : DfRefs * result PacketCache :=
  match reads with
  | [] => (df_refs, Ok packet_cache)
  | r :: reads' =>
    match loop_body packet_cache df_refs r with
    | (df_refs', Ok packet_cache') => run_loop packet_cache' df_refs' reads'
    | (df_refs', Raise e) => (df_refs', Raise e)
    end
  end.

(** [collect_data] never returns: it ends with the exception raised in its
    loop, or with the [KeyboardInterrupt] that arrives in the read after
    the last one of [reads].  [df_refs] belongs to the caller, who sees the
    rows added up to then; [packet_cache] is local and is gone. *)
Definition collect_data (df_refs : DfRefs) (reads : list read) : DfRefs * exn :=
  match run_loop initial_cache df_refs reads with
  | (df_refs', Ok _) => (df_refs', KeyboardInterrupt)
  | (df_refs', Raise e) => (df_refs', e)
  end.

(** ** [start] *)

(** Modelled from the spec: [create_empty_df] of [qerr_utils], which is
    not part of the sources at hand.  A table starts with the declared
    column schema of its logical record type and no rows; the schema
    itself is left open. *)
Definition create_empty_df (schema : string → list string) (data_type : string) : DataFrame :=
  {| columns := schema data_type; rows := [] |}.

Definition empty_df_refs (schema : string → list string) : DfRefs :=
  {| df_NAV_TIMEUTC := create_empty_df schema "NAV-TIMEUTC";
     df_TIM_TP := create_empty_df schema "TIM-TP";
     df_MERGED := create_empty_df schema "MERGED" |}.

(** How [start] ends once the device is configured. *)
Inductive start_outcome :=
| NotStarted (e : exn)
    (* [verify_dataflow] raised: no table was created, nothing was saved *)
| Saved (df_refs : DfRefs) (e : option exn).
    (* the tables given to [save_data] in the [finally] block, and the
       exception that leaves [start] afterwards, if any *)

(** [verify_dataflow] and [collect_data] each open the device anew:
    [stream] is what the first one reads, [reads] what the second one reads
    before the interrupt.  [poll_config], [set_config] and the creation of
    the output directory only talk to the device and the file system. *)
Definition start (schema : string → list string) (stream : nat → option UBXMessage)
    (reads : list read) : start_outcome :=
  match verify_dataflow stream with
  | Raise e => NotStarted e
  | Ok _ =>
    match collect_data (empty_df_refs schema) reads with
    | (df_refs, KeyboardInterrupt) => Saved df_refs None
    | (df_refs, e) => Saved df_refs (Some e)
    end
  end.

(** ** Vocabulary for the statements *)

(** The arrival-time distance of two packets, in microseconds. *)
Definition arrival_distance (t_tim t_nav : datetime) : Z := Z.abs (t_tim - t_nav).

(** The record waiting in a cache entry, if the entry is occupied. *)
Definition pending (e : CacheEntry) : list row :=
  if valid e then [row_of (parsed_data e)] else [].



Definition both_valid (packet_cache : PacketCache) : bool :=
  valid (pc_TIM_TP packet_cache) && valid (pc_NAV_TIMEUTC packet_cache).

(** A read that carries no packet of interest. *)
Definition ignored (r : read) : Prop :=
  match r.1 with
  | None => True
  | Some m => identity m ≠ "NAV-TIMEUTC" ∧ identity m ≠ "TIM-TP"
  end.

(** Identity [id] was seen among the first [n] reads of [stream]. *)
Definition seen (stream : nat → option UBXMessage) (id : string) (n : nat) : Prop :=
  ∃ i m, (i < n)%nat ∧ stream i = Some m ∧ identity m = id.

Definition both_seen (stream : nat → option UBXMessage) (n : nat) : Prop :=
  seen stream "NAV-TIMEUTC" n ∧ seen stream "TIM-TP" n.





(** ** Sample data *)

Definition tim_tp_columns : list string :=
  ["pkt_unix_timestamp_TIM-TP"; "towMS (ms)"; "towSubMS"; "qErr (ps)";
   "week (weeks)"; "timeBase_flag"; "utc_flag"; "raim_flag";
   "qErrInvalid_flag"; "timeRefGnss"; "utcStandard_TIM-TP"].

Definition nav_timeutc_columns : list string :=
  ["pkt_unix_timestamp_NAV-TIMEUTC"; "iTOW (ms)"; "tAcc (ns)"; "year";
   "month"; "day"; "hour"; "min"; "sec"; "validTOW_flag"; "validWKN_flag";
   "validUTC_flag"; "utcStandard_NAV-TIMEUTC"].

(** A schema under which a merge goes through: the columns of a table are
    the keys of the dicts written to it. *)
Definition sample_schema (data_type : string) : list string :=
  if decide (data_type = "MERGED") then tim_tp_columns ++ nav_timeutc_columns
  else if decide (data_type = "TIM-TP") then tim_tp_columns
  else nav_timeutc_columns.

Definition sample_tim_tp : UBXMessage :=
  {| identity := "TIM-TP"; getattr := λ a, if decide (a = "qErr") then -1234 else 0 |}.

Definition sample_nav_timeutc : UBXMessage :=
  {| identity := "NAV-TIMEUTC"; getattr := λ a, if decide (a = "year") then 2024 else 1 |}.

Definition sample_nav_pvt : UBXMessage :=
  {| identity := "NAV-PVT"; getattr := λ _, 0 |}.


(** The step added a row to the Merged table. *)
Definition merge_produced (df_refs df_refs' : DfRefs) : Prop :=
  ∃ merged_data, rows (df_MERGED df_refs') = rows (df_MERGED df_refs) ++ [merged_data].

(** The cache right after a TIM-TP packet at [t_tim] and a NAV-TIMEUTC
    packet at [t_nav] were stored, nothing having been checked yet. *)
Definition sample_full_cache (t_tim t_nav : datetime) : PacketCache :=
  cache_packet (cache_packet initial_cache (Some sample_tim_tp) t_tim)
    (Some sample_nav_timeutc) t_nav.

(** The two channels, to speak of either cache entry in one statement. *)
Inductive channel := NAV_TIMEUTC | TIM_TP.

Definition channel_identity (c : channel) : string :=
  match c with NAV_TIMEUTC => "NAV-TIMEUTC" | TIM_TP => "TIM-TP" end.

Definition entry (c : channel) (packet_cache : PacketCache) : CacheEntry :=
  match c with
  | NAV_TIMEUTC => pc_NAV_TIMEUTC packet_cache
  | TIM_TP => pc_TIM_TP packet_cache
  end.

Definition set_entry (c : channel) (e : CacheEntry) (packet_cache : PacketCache) : PacketCache :=
  match c with
  | NAV_TIMEUTC => {| pc_NAV_TIMEUTC := e; pc_TIM_TP := pc_TIM_TP packet_cache |}
  | TIM_TP => {| pc_NAV_TIMEUTC := pc_NAV_TIMEUTC packet_cache; pc_TIM_TP := e |}
  end.

Definition channel_data (c : channel) (pkt_unix_timestamp : datetime) (m : UBXMessage) : row :=
  match c with
  | NAV_TIMEUTC => nav_timeutc_data pkt_unix_timestamp m
  | TIM_TP => tim_tp_data pkt_unix_timestamp m
  end.

(** The entry is occupied by the record [d] that arrived at [t]. *)
Definition holds (e : CacheEntry) (t : datetime) (d : row) : Prop :=
  valid e = true ∧ timestamp e = Some t ∧ parsed_data e = Some d.

(** A schema that lacks one of the columns a merged row has. *)
Definition short_schema (data_type : string) : list string :=
  if decide (data_type = "MERGED") then tim_tp_columns ++ ["year"; "month"; "day"]
  else sample_schema data_type.

(** The record [d] is a row of a per-channel table and also part of a row
    of the Merged table. *)
Definition persisted_twice (df_refs : DfRefs) (d : row) : Prop :=
  (d ∈ rows (df_TIM_TP df_refs) ∨ d ∈ rows (df_NAV_TIMEUTC df_refs)) ∧
  ∃ merged_data, merged_data ∈ rows (df_MERGED df_refs) ∧ d ⊆ merged_data.

(** The dict [packet_id_flags] with given values under its two keys. *)
Definition flags_of (nav tim : bool) : gmap string bool :=
  list_to_map [("NAV-TIMEUTC", nav); ("TIM-TP", tim)].

(** A stream on which the dataflow check passes after two reads, and one
    that only ever delivers TIM-TP. *)
Definition sample_stream (i : nat) : option UBXMessage :=
  match i with
  | O => Some sample_tim_tp
  | _ => Some sample_nav_timeutc
  end.

Definition tim_tp_only_stream (i : nat) : option UBXMessage :=
  if Nat.even i then Some sample_tim_tp else None.







(** Two entries that agree as far as the loop can still use them: both
    empty, or both occupied by the same record. *)
Definition same_live_entry (e1 e2 : CacheEntry) : Prop :=
  valid e1 = valid e2 ∧ (valid e1 = true → e1 = e2).






(** What one pass through the loop body can do to the tables. *)
Inductive tables_step (df_refs : DfRefs) : DfRefs → Prop :=
| step_nothing : tables_step df_refs df_refs
| step_merge d_tim d_nav :
    tables_step df_refs
      {| df_NAV_TIMEUTC := df_append (df_NAV_TIMEUTC df_refs) d_nav;
         df_TIM_TP := df_append (df_TIM_TP df_refs) d_tim;
         df_MERGED := df_append (df_MERGED df_refs) (merge_data d_tim d_nav) |}
| step_tim_tp d_tim :
    tables_step df_refs
      {| df_NAV_TIMEUTC := df_NAV_TIMEUTC df_refs;
         df_TIM_TP := df_append (df_TIM_TP df_refs) d_tim;
         df_MERGED := df_MERGED df_refs |}
| step_nav_timeutc d_nav :
    tables_step df_refs
      {| df_NAV_TIMEUTC := df_append (df_NAV_TIMEUTC df_refs) d_nav;
         df_TIM_TP := df_TIM_TP df_refs;
         df_MERGED := df_MERGED df_refs |}.

(** The table of a channel. *)
Definition table (c : channel) (df_refs : DfRefs) : DataFrame :=
  match c with
  | NAV_TIMEUTC => df_NAV_TIMEUTC df_refs
  | TIM_TP => df_TIM_TP df_refs
  end.

(** The record that a read brings to channel [c], if it brings one. *)
Definition arrival (c : channel) (r : read) : option row :=
  match r.1 with
  | Some m =>
    if decide (identity m = channel_identity c) then Some (channel_data c r.2 m) else None
  | None => None
  end.

(** The records of a channel among the reads, in arrival order. *)
Definition channel_records (c : channel) (reads : list read) : list row :=
  omap (arrival c) reads.

(** What a read discards from channel [c]: the record that waits in the
    entry when a packet of the same channel arrives and overwrites it. *)
Definition overwritten_by (c : channel) (packet_cache : PacketCache) (r : read) : list row :=
  match arrival c r with
  | Some _ => pending (entry c packet_cache)
  | None => []
  end.

(** The records of channel [c] discarded in this way along a run. *)
Fixpoint overwritten (c : channel) (packet_cache : PacketCache) (df_refs : DfRefs)
    (reads : list read) : list row :=
  match reads with
  | [] => []
  | r :: reads' =>
    overwritten_by c packet_cache r ++
    match loop_body packet_cache df_refs r with
    | (df_refs', Ok packet_cache') => overwritten c packet_cache' df_refs' reads'
    | (_, Raise _) => []
    end
  end.

(** The rows of the Merged table pair off, one to one and in order, some
    rows [merged_tim] of the TIM-TP table with some rows [merged_nav] of
    the NAV-TIMEUTC table; [fallback_tim] and [fallback_nav] are the other
    rows of the two tables. *)
Definition paired_off (df_refs : DfRefs)
    (merged_tim merged_nav fallback_tim fallback_nav : list row) : Prop :=
  length merged_tim = length merged_nav ∧
  rows (df_MERGED df_refs) = zip_with merge_data merged_tim merged_nav ∧
  rows (df_TIM_TP df_refs) ≡ₚ merged_tim ++ fallback_tim ∧
  rows (df_NAV_TIMEUTC df_refs) ≡ₚ merged_nav ++ fallback_nav.

(** TIM-TP at 0.0 s, again at 0.1 s, NAV-TIMEUTC at 0.5 s and at 0.7 s,
    TIM-TP at 3.0 s. *)
Definition sample_reads : list read :=
  [(Some sample_tim_tp, 0); (Some sample_tim_tp, 100000);
   (Some sample_nav_timeutc, 500000); (Some sample_nav_timeutc, 700000);
   (Some sample_tim_tp, 3000000)].


(** * Properties *)

(** ** Time arithmetic *)

Lemma timedelta_us_of_us (us : Z) : timedelta_us (timedelta_of_us us) = us.
Proof.
  unfold timedelta_us, timedelta_of_us, US_PER_DAY, US_PER_SECOND; simpl.
  Z.div_mod_to_equations; lia.
Qed.

Lemma days_of_us_neg (us : Z) : days (timedelta_of_us us) < 0 ↔ us < 0.
Proof. unfold timedelta_of_us, US_PER_DAY; simpl. Z.div_mod_to_equations; lia. Qed.

Lemma day_fields_of_us (us : Z) :
  seconds (timedelta_of_us us) * 1000000 + microseconds (timedelta_of_us us)
  = us `mod` US_PER_DAY.
Proof.
  unfold timedelta_of_us, US_PER_DAY, US_PER_SECOND; simpl.
  Z.div_mod_to_equations; lia.
Qed.

(** What the loop compares with [1e6] is the distance of the two arrival
    times reduced modulo one day: [days] is not part of the sum. *)
Lemma microsec_time_diff_mod_day (t_tim t_nav : datetime) :
  microsec_time_diff t_tim t_nav = arrival_distance t_tim t_nav `mod` US_PER_DAY.
Proof.
  unfold microsec_time_diff, timedelta_abs, timedelta_neg, datetime_sub, arrival_distance.
  case_bool_decide as Hneg.
  - apply (proj1 (days_of_us_neg _)) in Hneg.
    rewrite timedelta_us_of_us, day_fields_of_us. f_equal. lia.
  - assert (¬ t_tim - t_nav < 0) by (intros ?%days_of_us_neg; done).
    rewrite day_fields_of_us. f_equal. lia.
Qed.

Lemma microsec_time_diff_within_day (t_tim t_nav : datetime) :
  arrival_distance t_tim t_nav < US_PER_DAY →
  microsec_time_diff t_tim t_nav = arrival_distance t_tim t_nav.
Proof.
  intros Hday. rewrite microsec_time_diff_mod_day.
  apply Z.mod_small. unfold arrival_distance in *. lia.
Qed.

Lemma microsec_time_diff_sym (t_tim t_nav : datetime) :
  microsec_time_diff t_tim t_nav = microsec_time_diff t_nav t_tim.
Proof.
  rewrite !microsec_time_diff_mod_day. unfold arrival_distance. f_equal. lia.
Qed.

(** ** The check on a full cache, case by case *)

Lemma correlate_not_full (packet_cache : PacketCache) (df_refs : DfRefs) :
  both_valid packet_cache = false →
  correlate packet_cache df_refs = (df_refs, Ok packet_cache).
Proof. unfold both_valid, correlate. by intros ->. Qed.

Section full_cache.
Context (packet_cache : PacketCache) (df_refs : DfRefs).
Context (t_tim t_nav : datetime) (d_tim d_nav : row).
Hypothesis Hvalid : both_valid packet_cache = true.
Hypothesis Ht_tim : timestamp (pc_TIM_TP packet_cache) = Some t_tim.
Hypothesis Ht_nav : timestamp (pc_NAV_TIMEUTC packet_cache) = Some t_nav.
Hypothesis Hd_tim : parsed_data (pc_TIM_TP packet_cache) = Some d_tim.
Hypothesis Hd_nav : parsed_data (pc_NAV_TIMEUTC packet_cache) = Some d_nav.

Lemma correlate_merge :
  microsec_time_diff t_tim t_nav < 1000000 →
  dom (merge_data d_tim d_nav) = list_to_set (C:=gset string) (columns (df_MERGED df_refs)) →
  correlate packet_cache df_refs =
    ({| df_NAV_TIMEUTC := df_append (df_NAV_TIMEUTC df_refs) d_nav;
        df_TIM_TP := df_append (df_TIM_TP df_refs) d_tim;
        df_MERGED := df_append (df_MERGED df_refs) (merge_data d_tim d_nav) |},
     Ok {| pc_NAV_TIMEUTC := invalidate (pc_NAV_TIMEUTC packet_cache);
           pc_TIM_TP := invalidate (pc_TIM_TP packet_cache) |}).
Proof.
  intros Hwin Hkeys. unfold correlate. fold (both_valid packet_cache).
  rewrite Hvalid, Ht_tim, Ht_nav, Hd_tim, Hd_nav.
  rewrite bool_decide_eq_true_2 by done.
  by rewrite decide_False by (by intros []).
Qed.

Lemma correlate_schema_mismatch :
  microsec_time_diff t_tim t_nav < 1000000 →
  dom (merge_data d_tim d_nav) ≠ list_to_set (C:=gset string) (columns (df_MERGED df_refs)) →
  correlate packet_cache df_refs =
    (df_refs,
     Raise (KeyError
       (dom (merge_data d_tim d_nav) ∖ list_to_set (columns (df_MERGED df_refs)))
       (list_to_set (columns (df_MERGED df_refs)) ∖ dom (merge_data d_tim d_nav)))).
Proof.
  intros Hwin Hkeys. unfold correlate. fold (both_valid packet_cache).
  rewrite Hvalid, Ht_tim, Ht_nav, Hd_tim, Hd_nav.
  rewrite bool_decide_eq_true_2 by done.
  by rewrite decide_True by done.
Qed.

Lemma correlate_tim_tp_earlier :
  1000000 ≤ microsec_time_diff t_tim t_nav →
  t_tim < t_nav →
  correlate packet_cache df_refs =
    ({| df_NAV_TIMEUTC := df_NAV_TIMEUTC df_refs;
        df_TIM_TP := df_append (df_TIM_TP df_refs) d_tim;
        df_MERGED := df_MERGED df_refs |},
     Ok {| pc_NAV_TIMEUTC := pc_NAV_TIMEUTC packet_cache;
           pc_TIM_TP := invalidate (pc_TIM_TP packet_cache) |}).
Proof.
  intros Hwin Hlt. unfold correlate. fold (both_valid packet_cache).
  rewrite Hvalid, Ht_tim, Ht_nav, Hd_tim.
  rewrite bool_decide_eq_false_2 by lia.
  by rewrite bool_decide_eq_true_2 by done.
Qed.

Lemma correlate_nav_timeutc_earlier :
  1000000 ≤ microsec_time_diff t_tim t_nav →
  t_nav ≤ t_tim →
  correlate packet_cache df_refs =
    ({| df_NAV_TIMEUTC := df_append (df_NAV_TIMEUTC df_refs) d_nav;
        df_TIM_TP := df_TIM_TP df_refs;
        df_MERGED := df_MERGED df_refs |},
     Ok {| pc_NAV_TIMEUTC := invalidate (pc_NAV_TIMEUTC packet_cache);
           pc_TIM_TP := pc_TIM_TP packet_cache |}).
Proof.
  intros Hwin Hle. unfold correlate. fold (both_valid packet_cache).
  rewrite Hvalid, Ht_tim, Ht_nav, Hd_nav.
  rewrite bool_decide_eq_false_2 by lia.
  by rewrite bool_decide_eq_false_2 by lia.
Qed.
(** With a matching schema, a merged row is produced exactly when the
    distance of the arrival times, taken modulo one day, is below one
    second. *)
Lemma merge_produced_iff :
  dom (merge_data d_tim d_nav) = list_to_set (C:=gset string) (columns (df_MERGED df_refs)) →
  merge_produced df_refs (correlate packet_cache df_refs).1 ↔
  arrival_distance t_tim t_nav `mod` US_PER_DAY < 1000000.
Proof.
  intros Hkeys. rewrite <-microsec_time_diff_mod_day. split.
  - intros [m Hm].
    destruct (decide (microsec_time_diff t_tim t_nav < 1000000)) as [|Hwin]; [done|].
    exfalso. apply (f_equal length) in Hm. revert Hm.
    destruct (decide (t_tim < t_nav)).
    + rewrite correlate_tim_tp_earlier by lia. simpl. rewrite length_app. simpl. lia.
    + rewrite correlate_nav_timeutc_earlier by lia. simpl. rewrite length_app. simpl. lia.
  - intros Hwin. rewrite correlate_merge by done. by eexists.
Qed.

(** So for arrivals less than a day apart the window is the stated one. *)
Lemma merge_produced_iff_within_day :
  dom (merge_data d_tim d_nav) = list_to_set (C:=gset string) (columns (df_MERGED df_refs)) →
  arrival_distance t_tim t_nav < US_PER_DAY →
  merge_produced df_refs (correlate packet_cache df_refs).1 ↔
  arrival_distance t_tim t_nav < 1000000.
Proof.
  intros Hkeys Hday. rewrite merge_produced_iff by done.
  rewrite Z.mod_small; [done|]. unfold arrival_distance in *. lia.
Qed.
End full_cache.

(** ** The keys of the stored dicts *)

Lemma dom_tim_tp_data (t : datetime) (m : UBXMessage) :
  dom (tim_tp_data t m) = list_to_set (C:=gset string) tim_tp_columns.
Proof. unfold tim_tp_data. by rewrite dom_list_to_map_L. Qed.

Lemma dom_nav_timeutc_data (t : datetime) (m : UBXMessage) :
  dom (nav_timeutc_data t m) = list_to_set (C:=gset string) nav_timeutc_columns.
Proof. unfold nav_timeutc_data. by rewrite dom_list_to_map_L. Qed.

(** No key is common to the two dicts. *)
Lemma data_disjoint (t t' : datetime) (m m' : UBXMessage) :
  nav_timeutc_data t m ##ₘ tim_tp_data t' m'.
Proof.
  apply map_disjoint_dom_2. rewrite dom_tim_tp_data, dom_nav_timeutc_data.
  apply (bool_decide_eq_true_1 (_ ## _)). by vm_compute.
Qed.

Lemma dom_merge_data (t t' : datetime) (m m' : UBXMessage) :
  dom (merge_data (tim_tp_data t m) (nav_timeutc_data t' m'))
  = list_to_set (C:=gset string) (tim_tp_columns ++ nav_timeutc_columns).
Proof.
  unfold merge_data. rewrite dom_union_L, dom_tim_tp_data, dom_nav_timeutc_data.
  rewrite list_to_set_app_L. set_solver.
Qed.

(** Under the sample schema the keys of a merged dict are the columns of
    the Merged table. *)
Lemma sample_schema_keys (t t' : datetime) (m m' : UBXMessage) :
  dom (merge_data (tim_tp_data t m) (nav_timeutc_data t' m'))
  = list_to_set (C:=gset string) (columns (df_MERGED (empty_df_refs sample_schema))).
Proof. apply dom_merge_data. Qed.

(** C1, where the code departs from it: a TIM-TP packet and a NAV-TIMEUTC
    packet that arrive one day and half a second apart fill both cache
    entries, their arrival times differ by far more than 1,000,000
    microseconds, and the check still merges them into a row of the
    Merged table. *)
Theorem C1_merge_one_day_apart :
  let packet_cache := sample_full_cache 0 86400500000 in
  let df_refs := empty_df_refs sample_schema in
  both_valid packet_cache = true ∧
  ¬ arrival_distance 0 86400500000 < 1000000 ∧
  merge_produced df_refs (correlate packet_cache df_refs).1.
Proof.
  split_and!.
  - reflexivity.
  - unfold arrival_distance. lia.
  - apply (merge_produced_iff _ _ 0 86400500000 (tim_tp_data 0 sample_tim_tp)
             (nav_timeutc_data 86400500000 sample_nav_timeutc));
      [reflexivity.. | apply sample_schema_keys | ].
    unfold arrival_distance, US_PER_DAY. by vm_compute.
Qed.

(** C4, where the code departs from it: NAV-TIMEUTC arrives first and
    TIM-TP two days and a quarter of a second later.  The window is
    exceeded, yet the step writes a Merged row and clears the entry of the
    later packet as well. *)
Theorem C4_later_entry_cleared_two_days_apart :
  let packet_cache :=
    cache_packet (cache_packet initial_cache (Some sample_nav_timeutc) 0)
      (Some sample_tim_tp) 172800250000 in
  let df_refs := empty_df_refs sample_schema in
  both_valid packet_cache = true ∧
  1000000 ≤ arrival_distance 172800250000 0 ∧
  ∃ df_refs' packet_cache',
    correlate packet_cache df_refs = (df_refs', Ok packet_cache') ∧
    merge_produced df_refs df_refs' ∧
    valid (pc_TIM_TP packet_cache') = false.
Proof.
  split_and!.
  - reflexivity.
  - unfold arrival_distance. lia.
  - eexists _, _. split_and!.
    + apply (correlate_merge _ _ 172800250000 0
               (tim_tp_data 172800250000 sample_tim_tp)
               (nav_timeutc_data 0 sample_nav_timeutc));
        [reflexivity.. | | apply sample_schema_keys].
      rewrite microsec_time_diff_mod_day. unfold arrival_distance, US_PER_DAY.
      by vm_compute.
    + eexists. reflexivity.
    + reflexivity.
Qed.

(** ** At most one entry is occupied between two reads *)

Lemma correlate_at_most_one (packet_cache packet_cache' : PacketCache) (df_refs df_refs' : DfRefs) :
  correlate packet_cache df_refs = (df_refs', Ok packet_cache') →
  both_valid packet_cache' = false.
Proof.
  unfold correlate. fold (both_valid packet_cache).
  destruct (both_valid packet_cache) eqn:Hfull.
  - intros H. repeat case_match; simplify_eq; unfold both_valid; simpl;
      by rewrite ?andb_false_r.
  - by intros [= _ <-].
Qed.

(** C10: when the body of the loop has run to its end for one read, the
    two cache entries are not both occupied. *)
Theorem C10_at_most_one_entry_after_step
    (packet_cache packet_cache' : PacketCache) (df_refs df_refs' : DfRefs) (r : read) :
  loop_body packet_cache df_refs r = (df_refs', Ok packet_cache') →
  both_valid packet_cache' = false.
Proof. apply correlate_at_most_one. Qed.

(** A pair within the window: the pass merges and leaves both entries
    empty. *)
Lemma sample_merge_step (packet_cache : PacketCache) (t_tim t_nav : datetime) :
  microsec_time_diff t_tim t_nav < 1000000 →
  loop_body (cache_packet packet_cache (Some sample_tim_tp) t_tim)
    (empty_df_refs sample_schema) (Some sample_nav_timeutc, t_nav)
  = ({| df_NAV_TIMEUTC :=
          df_append (create_empty_df sample_schema "NAV-TIMEUTC")
            (nav_timeutc_data t_nav sample_nav_timeutc);
        df_TIM_TP :=
          df_append (create_empty_df sample_schema "TIM-TP")
            (tim_tp_data t_tim sample_tim_tp);
        df_MERGED :=
          df_append (create_empty_df sample_schema "MERGED")
            (merge_data (tim_tp_data t_tim sample_tim_tp)
               (nav_timeutc_data t_nav sample_nav_timeutc)) |},
     Ok {| pc_NAV_TIMEUTC :=
             {| valid := false; timestamp := Some t_nav;
                parsed_data := Some (nav_timeutc_data t_nav sample_nav_timeutc) |};
           pc_TIM_TP :=
             {| valid := false; timestamp := Some t_tim;
                parsed_data := Some (tim_tp_data t_tim sample_tim_tp) |} |}).
Proof.
  intros Hwin. unfold loop_body.
  by rewrite (correlate_merge _ _ t_tim t_nav (tim_tp_data t_tim sample_tim_tp)
                (nav_timeutc_data t_nav sample_nav_timeutc))
    by (reflexivity || done || apply sample_schema_keys).
Qed.

Lemma window_500ms : microsec_time_diff 0 500000 < 1000000.
Proof. rewrite microsec_time_diff_mod_day. by vm_compute. Qed.

Lemma C10_witness :
  ∃ df_refs' packet_cache',
    loop_body (cache_packet initial_cache (Some sample_tim_tp) 0)
      (empty_df_refs sample_schema) (Some sample_nav_timeutc, 500000)
    = (df_refs', Ok packet_cache') ∧
    both_valid packet_cache' = false.
Proof.
  eexists _, _. split; [exact (sample_merge_step initial_cache 0 500000 window_500ms)|].
  exact (C10_at_most_one_entry_after_step _ _ _ _ _
           (sample_merge_step initial_cache 0 500000 window_500ms)).
Defined.

Lemma run_loop_at_most_one (reads : list read) :
  ∀ (packet_cache packet_cache' : PacketCache) (df_refs df_refs' : DfRefs),
  both_valid packet_cache = false →
  run_loop packet_cache df_refs reads = (df_refs', Ok packet_cache') →
  both_valid packet_cache' = false.
Proof.
  induction reads as [|r reads IH]; intros pc pc' df df' Hpc; simpl.
  - by intros [= _ <-].
  - destruct (loop_body pc df r) as [df1 [pc1|e]] eqn:Hbody; [|done].
    apply IH. by eapply correlate_at_most_one.
Qed.

(** ** Reads without a packet of interest *)

Lemma cache_packet_ignored (packet_cache : PacketCache) (r : read) :
  ignored r → cache_packet packet_cache r.1 r.2 = packet_cache.
Proof.
  unfold ignored, cache_packet. destruct r.1 as [m|]; [|done].
  intros [Hnav Htim]. by rewrite !decide_False.
Qed.

(** C8: at any point of the loop, a read that returns no packet, or a
    packet that is neither TIM-TP nor NAV-TIMEUTC, leaves the cache and the
    three tables as they are, and the loop goes on. *)
Theorem C8_ignored_read_changes_nothing
    (df_refs0 df_refs : DfRefs) (reads : list read) (packet_cache : PacketCache) (r : read) :
  run_loop initial_cache df_refs0 reads = (df_refs, Ok packet_cache) →
  ignored r →
  loop_body packet_cache df_refs r = (df_refs, Ok packet_cache).
Proof.
  intros Hrun Hign. unfold loop_body.
  rewrite cache_packet_ignored by done.
  apply correlate_not_full.
  by apply (run_loop_at_most_one reads initial_cache packet_cache df_refs0 df_refs).
Qed.

Lemma C8_witness :
  let df_refs := empty_df_refs sample_schema in
  let packet_cache := cache_packet initial_cache (Some sample_tim_tp) 0 in
  valid (pc_TIM_TP packet_cache) = true ∧
  loop_body packet_cache df_refs (Some sample_nav_pvt, 100000) = (df_refs, Ok packet_cache) ∧
  loop_body packet_cache df_refs (None, 100000) = (df_refs, Ok packet_cache).
Proof.
  intros df_refs packet_cache.
  assert (run_loop initial_cache df_refs [(Some sample_tim_tp, 0)]
          = (df_refs, Ok packet_cache)) as Hrun by reflexivity.
  split_and!.
  - reflexivity.
  - apply (C8_ignored_read_changes_nothing df_refs df_refs [(Some sample_tim_tp, 0)]
             packet_cache (Some sample_nav_pvt, 100000) Hrun).
    by split.
  - apply (C8_ignored_read_changes_nothing df_refs df_refs [(Some sample_tim_tp, 0)]
             packet_cache (None, 100000) Hrun).
    exact I.
Defined.

(** ** A repeated arrival on one channel *)

Lemma cache_packet_channel (c : channel) (packet_cache : PacketCache)
    (m : UBXMessage) (t : datetime) :
  identity m = channel_identity c →
  cache_packet packet_cache (Some m) t =
    set_entry c {| valid := true; timestamp := Some t;
                   parsed_data := Some (channel_data c t m) |} packet_cache.
Proof.
  intros Hid. unfold cache_packet. destruct c; simpl in *.
  - by rewrite decide_True.
  - rewrite decide_False by (by rewrite Hid). by rewrite decide_True.
Qed.

Lemma set_entry_twice (c : channel) (e e' : CacheEntry) (packet_cache : PacketCache) :
  set_entry c e (set_entry c e' packet_cache) = set_entry c e packet_cache.
Proof. by destruct c. Qed.

(** C5: a TIM-TP or NAV-TIMEUTC packet that arrives while the entry of its
    channel is occupied replaces what the entry held by the new record and
    its arrival time, the other entry being untouched; and what the entry
    held before has no part in anything that follows: the tables after any
    further reads are the same whatever it was. *)
Theorem C5_latest_wins (c : channel) (packet_cache : PacketCache) (df_refs : DfRefs)
    (m : UBXMessage) (t : datetime) (reads : list read) :
  identity m = channel_identity c →
  valid (entry c packet_cache) = true →
  cache_packet packet_cache (Some m) t =
    set_entry c {| valid := true; timestamp := Some t;
                   parsed_data := Some (channel_data c t m) |} packet_cache
  ∧ ∀ e_old : CacheEntry,
      run_loop (set_entry c e_old packet_cache) df_refs ((Some m, t) :: reads)
      = run_loop packet_cache df_refs ((Some m, t) :: reads).
Proof.
  intros Hid _. split; [by apply cache_packet_channel|].
  intros e_old. cbn [run_loop]. unfold loop_body. cbn [fst snd].
  by rewrite !(cache_packet_channel c), set_entry_twice.
Qed.

(** TIM-TP at 0.0 s, TIM-TP at 0.1 s, then NAV-TIMEUTC at 0.5 s: the entry
    holds the second TIM-TP, and the tables are those of a run that never
    saw the first one. *)
Lemma C5_witness :
  let packet_cache := cache_packet initial_cache (Some sample_tim_tp) 0 in
  let df_refs := empty_df_refs sample_schema in
  let reads := [(Some sample_nav_timeutc, 500000)] in
  pc_TIM_TP (cache_packet packet_cache (Some sample_tim_tp) 100000) =
    {| valid := true; timestamp := Some 100000;
       parsed_data := Some (tim_tp_data 100000 sample_tim_tp) |}
  ∧ run_loop initial_cache df_refs ((Some sample_tim_tp, 100000) :: reads)
    = run_loop packet_cache df_refs ((Some sample_tim_tp, 100000) :: reads).
Proof.
  intros packet_cache df_refs reads.
  destruct (C5_latest_wins TIM_TP packet_cache df_refs sample_tim_tp 100000 reads
              eq_refl eq_refl) as [Hcache Hrun].
  split.
  - by rewrite Hcache.
  - exact (Hrun empty_entry).
Defined.

(** ** The schema check *)

Lemma loop_body_cases (packet_cache : PacketCache) (df_refs : DfRefs) (r : read) :
  let pc1 := cache_packet packet_cache r.1 r.2 in
  (∃ t_tim t_nav d_tim d_nav,
     holds (pc_TIM_TP pc1) t_tim d_tim ∧ holds (pc_NAV_TIMEUTC pc1) t_nav d_nav ∧
     microsec_time_diff t_tim t_nav < 1000000 ∧
     dom (merge_data d_tim d_nav) = list_to_set (C:=gset string) (columns (df_MERGED df_refs)) ∧
     rows (df_MERGED (loop_body packet_cache df_refs r).1)
       = rows (df_MERGED df_refs) ++ [merge_data d_tim d_nav])
  ∨ df_MERGED (loop_body packet_cache df_refs r).1 = df_MERGED df_refs.
Proof.
  intros pc1. unfold loop_body. fold pc1. unfold correlate.
  destruct (valid (pc_TIM_TP pc1)) eqn:Hv1, (valid (pc_NAV_TIMEUTC pc1)) eqn:Hv2;
    simpl; try by right.
  destruct (timestamp (pc_TIM_TP pc1)) as [t_tim|] eqn:Ht1; [|by right].
  destruct (timestamp (pc_NAV_TIMEUTC pc1)) as [t_nav|] eqn:Ht2; [|by right].
  case_bool_decide as Hwin; [|case_bool_decide; by right].
  destruct (parsed_data (pc_TIM_TP pc1)) as [d_tim|] eqn:Hd1; [|by right].
  destruct (parsed_data (pc_NAV_TIMEUTC pc1)) as [d_nav|] eqn:Hd2; [|by right].
  case_decide as Hkeys; [by right|].
  left. exists t_tim, t_nav, d_tim, d_nav. unfold holds. by split_and!.
Qed.

(** C6: take any pass through the loop body.  If, once the packet is
    stored, both entries are occupied, their times pass the window test and
    the keys of the merged dict differ from the columns of the Merged
    table, the pass ends in a [KeyError] and the three tables are what they
    were before the packet was read.  And a row that the pass adds to the
    Merged table has exactly the columns of that table as its keys. *)
Theorem C6_schema_check (packet_cache : PacketCache) (df_refs df_refs' : DfRefs)
    (r : read) (out : result PacketCache) :
  loop_body packet_cache df_refs r = (df_refs', out) →
  let pc1 := cache_packet packet_cache r.1 r.2 in
  let schema_keys : gset string := list_to_set (columns (df_MERGED df_refs)) in
  (∀ t_tim t_nav d_tim d_nav,
     holds (pc_TIM_TP pc1) t_tim d_tim → holds (pc_NAV_TIMEUTC pc1) t_nav d_nav →
     microsec_time_diff t_tim t_nav < 1000000 →
     dom (merge_data d_tim d_nav) ≠ schema_keys →
     df_refs' = df_refs ∧
     out = Raise (KeyError (dom (merge_data d_tim d_nav) ∖ schema_keys)
                           (schema_keys ∖ dom (merge_data d_tim d_nav))))
  ∧ (∀ merged_data,
       rows (df_MERGED df_refs') = rows (df_MERGED df_refs) ++ [merged_data] →
       dom merged_data = schema_keys).
Proof.
  intros Hstep pc1 schema_keys. split.
  - intros t_tim t_nav d_tim d_nav (Hv1 & Ht1 & Hd1) (Hv2 & Ht2 & Hd2) Hwin Hkeys.
    unfold loop_body in Hstep. fold pc1 in Hstep.
    rewrite (correlate_schema_mismatch pc1 df_refs t_tim t_nav d_tim d_nav) in Hstep;
      [by simplify_eq | by unfold both_valid; rewrite Hv1, Hv2 | done..].
  - intros m Hm.
    destruct (loop_body_cases packet_cache df_refs r)
      as [(t_tim & t_nav & d_tim & d_nav & _ & _ & _ & Hkeys & Hrows)|Hsame];
      rewrite Hstep in *; simpl in *.
    + rewrite Hrows in Hm. by simplify_list_eq.
    + rewrite Hsame in Hm. apply (f_equal length) in Hm.
      rewrite length_app in Hm. simpl in Hm. lia.
Qed.

(** With only the year, month and day columns for NAV-TIMEUTC in the Merged
    schema, the first pair within the window raises, and no table has a row. *)
Lemma short_schema_mismatch (t t' : datetime) (m m' : UBXMessage) :
  dom (merge_data (tim_tp_data t m) (nav_timeutc_data t' m'))
  ≠ list_to_set (C:=gset string) (columns (df_MERGED (empty_df_refs short_schema))).
Proof.
  rewrite dom_merge_data. apply (bool_decide_eq_false_1 (_ = _)). by vm_compute.
Qed.

Lemma C6_witness :
  let packet_cache := cache_packet initial_cache (Some sample_tim_tp) 0 in
  let df_refs := empty_df_refs short_schema in
  ∃ extra missing,
    loop_body packet_cache df_refs (Some sample_nav_timeutc, 500000)
      = (df_refs, Raise (KeyError extra missing)).
Proof.
  intros packet_cache df_refs.
  destruct (loop_body packet_cache df_refs (Some sample_nav_timeutc, 500000))
    as [df_refs' out] eqn:Hstep.
  destruct (C6_schema_check packet_cache df_refs df_refs'
              (Some sample_nav_timeutc, 500000) out Hstep) as [Herr _].
  destruct (Herr 0 500000 (tim_tp_data 0 sample_tim_tp)
              (nav_timeutc_data 500000 sample_nav_timeutc)) as [-> ->].
  - by split_and!.
  - by split_and!.
  - exact window_500ms.
  - apply short_schema_mismatch.
  - eexists _, _. reflexivity.
Defined.

(** Along a whole run, every row of the Merged table has the columns of
    the table as its keys, provided the rows it started with did. *)
Lemma run_loop_merged_schema (reads : list read) :
  ∀ (packet_cache : PacketCache) (df_refs df_refs' : DfRefs) (out : result PacketCache),
  Forall (λ m : row, dom m = list_to_set (C:=gset string) (columns (df_MERGED df_refs)))
    (rows (df_MERGED df_refs)) →
  run_loop packet_cache df_refs reads = (df_refs', out) →
  columns (df_MERGED df_refs') = columns (df_MERGED df_refs) ∧
  Forall (λ m : row, dom m = list_to_set (C:=gset string) (columns (df_MERGED df_refs)))
    (rows (df_MERGED df_refs')).
Proof.
  induction reads as [|r reads IH]; intros pc df df' out Hinv; simpl.
  - by intros [= <- _].
  - destruct (loop_body pc df r) as [df1 out1] eqn:Hbody.
    assert (columns (df_MERGED df1) = columns (df_MERGED df) ∧
            Forall (λ m : row, dom m = list_to_set (C:=gset string) (columns (df_MERGED df)))
              (rows (df_MERGED df1))) as [Hcols Hrows].
    { destruct (loop_body_cases pc df r)
        as [(t_tim & t_nav & d_tim & d_nav & _ & _ & _ & Hkeys & Hrows)|Hsame];
        rewrite Hbody in *; simpl in *.
      - split.
        + revert Hbody. unfold loop_body, correlate.
          repeat case_match; intros; by simplify_eq.
        + rewrite Hrows. apply Forall_app. split; [done|]. by apply Forall_singleton.
      - by rewrite Hsame. }
    destruct out1 as [pc1|e].
    + intros Hrun. apply IH in Hrun; rewrite Hcols in *; [|done].
      destruct Hrun as [-> ?]. done.
    + by intros [= <- _].
Qed.

(** ** Where the records of a run end up *)

Lemma loop_body_tables_step (packet_cache : PacketCache) (df_refs : DfRefs) (r : read) :
  tables_step df_refs (loop_body packet_cache df_refs r).1.
Proof.
  unfold loop_body, correlate.
  repeat case_match; simpl; constructor.
Qed.


(** Storing a packet: the entry of its channel holds the new record, the
    other entry is as before. *)
Lemma pending_cache_packet (c : channel) (packet_cache : PacketCache) (r : read) :
  pending (entry c (cache_packet packet_cache r.1 r.2)) =
    match arrival c r with
    | Some d => [d]
    | None => pending (entry c packet_cache)
    end.
Proof.
  unfold arrival, cache_packet. destruct r.1 as [m|]; [|done].
  destruct c; simpl.
  - by repeat case_decide.
  - destruct (decide (identity m = "NAV-TIMEUTC")) as [Hid|Hid].
    + by rewrite decide_False by (by rewrite Hid).
    + by case_decide.
Qed.

(** The check moves a record from an entry to the table of its channel,
    or leaves both: the rows of the table followed by the waiting record
    are the same before and after. *)
Lemma correlate_keeps_records (c : channel) (pc1 packet_cache' : PacketCache)
    (df_refs df_refs' : DfRefs) :
  correlate pc1 df_refs = (df_refs', Ok packet_cache') →
  rows (table c df_refs') ++ pending (entry c packet_cache')
  = rows (table c df_refs) ++ pending (entry c pc1).
Proof.
  unfold correlate.
  destruct (valid (pc_TIM_TP pc1) && valid (pc_NAV_TIMEUTC pc1)) eqn:Hfull;
    [|by intros [= <- <-]].
  apply andb_true_iff in Hfull as [Hv1 Hv2].
  repeat case_match; intros [= <- <-]; destruct c; unfold pending; simpl;
    rewrite ?Hv1, ?Hv2, ?app_nil_r; simplify_eq/=;
    repeat match goal with H : parsed_data _ = Some _ |- _ => rewrite H end; done.
Qed.

Lemma loop_body_keeps_records (c : channel) (packet_cache packet_cache' : PacketCache)
    (df_refs df_refs' : DfRefs) (r : read) :
  loop_body packet_cache df_refs r = (df_refs', Ok packet_cache') →
  rows (table c df_refs') ++ pending (entry c packet_cache')
  = rows (table c df_refs) ++
    match arrival c r with
    | Some d => [d]
    | None => pending (entry c packet_cache)
    end.
Proof.
  intros Hbody%(correlate_keeps_records c). by rewrite Hbody, pending_cache_packet.
Qed.

Lemma paired_off_step (df_refs df_refs' : DfRefs)
    (merged_tim merged_nav fallback_tim fallback_nav : list row) :
  tables_step df_refs df_refs' →
  paired_off df_refs merged_tim merged_nav fallback_tim fallback_nav →
  ∃ merged_tim' merged_nav' fallback_tim' fallback_nav',
    paired_off df_refs' merged_tim' merged_nav' fallback_tim' fallback_nav'.
Proof.
  intros Hstep (Hlen & Hm & Ht & Hn). destruct Hstep as [|d_tim d_nav|d_tim|d_nav].
  - by exists merged_tim, merged_nav, fallback_tim, fallback_nav.
  - exists (merged_tim ++ [d_tim]), (merged_nav ++ [d_nav]), fallback_tim, fallback_nav.
    split_and!; simpl.
    + rewrite !length_app. simpl. lia.
    + rewrite Hm. by rewrite zip_with_app.
    + rewrite Ht. solve_Permutation.
    + rewrite Hn. solve_Permutation.
  - exists merged_tim, merged_nav, (fallback_tim ++ [d_tim]), fallback_nav.
    split_and!; simpl; [done..| |done]. rewrite Ht. solve_Permutation.
  - exists merged_tim, merged_nav, fallback_tim, (fallback_nav ++ [d_nav]).
    split_and!; simpl; [done..|]. rewrite Hn. solve_Permutation.
Qed.

Lemma run_loop_accounted (c : channel) (reads : list read) :
  ∀ (packet_cache packet_cache' : PacketCache) (df_refs df_refs' : DfRefs)
    (recs over : list row),
  recs ≡ₚ rows (table c df_refs) ++ pending (entry c packet_cache) ++ over →
  run_loop packet_cache df_refs reads = (df_refs', Ok packet_cache') →
  recs ++ channel_records c reads ≡ₚ
    rows (table c df_refs') ++ pending (entry c packet_cache') ++
    (over ++ overwritten c packet_cache df_refs reads).
Proof.
  unfold channel_records.
  induction reads as [|r reads IH]; intros pc pc' df df' recs over Hacc.
  - intros [= <- <-]. simpl. by rewrite !app_nil_r.
  - assert (omap (arrival c) (r :: reads)
            = option_list (arrival c r) ++ omap (arrival c) reads) as ->
      by (simpl; by destruct (arrival c r)).
    cbn [run_loop overwritten].
    destruct (loop_body pc df r) as [df1 [pc1|e]] eqn:Hbody; [|done].
    intros Hrun.
    assert (recs ++ option_list (arrival c r) ≡ₚ
            rows (table c df1) ++ pending (entry c pc1) ++ (over ++ overwritten_by c pc r))
      as Hacc1.
    { rewrite app_assoc, (loop_body_keeps_records c _ _ _ _ _ Hbody).
      unfold overwritten_by. rewrite Hacc. destruct (arrival c r); simpl.
      - solve_Permutation.
      - by rewrite !app_nil_r, app_assoc. }
    pose proof (IH _ _ _ _ _ _ Hacc1 Hrun) as Hfinal.
    rewrite app_assoc, Hfinal. by rewrite <-!app_assoc.
Qed.

Lemma run_loop_paired_off (reads : list read) :
  ∀ (packet_cache : PacketCache) (df_refs df_refs' : DfRefs) (out : result PacketCache)
    (merged_tim merged_nav fallback_tim fallback_nav : list row),
  paired_off df_refs merged_tim merged_nav fallback_tim fallback_nav →
  run_loop packet_cache df_refs reads = (df_refs', out) →
  ∃ merged_tim' merged_nav' fallback_tim' fallback_nav',
    paired_off df_refs' merged_tim' merged_nav' fallback_tim' fallback_nav'.
Proof.
  induction reads as [|r reads IH]; intros pc df df' out mt mn ft fn Hpaired.
  - intros [= <- _]. by eexists _, _, _, _.
  - cbn [run_loop].
    pose proof (loop_body_tables_step pc df r) as Hstep.
    destruct (paired_off_step _ _ _ _ _ _ Hstep Hpaired) as (mt1 & mn1 & ft1 & fn1 & Hp1).
    destruct (loop_body pc df r) as [df1 [pc1|e]]; simpl in *.
    + by eapply IH.
    + intros [= <- _]. by eexists _, _, _, _.
Qed.

(** C2 as the code has it: run the loop on any finite sequence of reads,
    from the empty cache and empty tables, to the end of the sequence.
    The rows of the Merged table pair off one to one some rows of the
    TIM-TP table with some rows of the NAV-TIMEUTC table, so a merged
    record is in the Merged table and in the table of its channel; and
    the records that arrived on a channel are, each counted once, the
    merged rows, the other rows of the table of the channel, the record
    that still waits in the cache, and the records that a later packet of
    the same channel overwrote while they waited. *)
Theorem C2_every_record_in_one_place (schema : string → list string)
    (reads : list read) (df_refs : DfRefs) (packet_cache : PacketCache) :
  run_loop initial_cache (empty_df_refs schema) reads = (df_refs, Ok packet_cache) →
  ∃ merged_tim merged_nav fallback_tim fallback_nav,
    paired_off df_refs merged_tim merged_nav fallback_tim fallback_nav ∧
    channel_records TIM_TP reads ≡ₚ
      merged_tim ++ fallback_tim ++ pending (pc_TIM_TP packet_cache) ++
      overwritten TIM_TP initial_cache (empty_df_refs schema) reads ∧
    channel_records NAV_TIMEUTC reads ≡ₚ
      merged_nav ++ fallback_nav ++ pending (pc_NAV_TIMEUTC packet_cache) ++
      overwritten NAV_TIMEUTC initial_cache (empty_df_refs schema) reads.
Proof.
  intros Hrun.
  destruct (run_loop_paired_off reads initial_cache (empty_df_refs schema) df_refs
              (Ok packet_cache) [] [] [] []) as (mt & mn & ft & fn & Hpaired);
    [by split_and!|done|].
  exists mt, mn, ft, fn. split; [done|].
  destruct Hpaired as (_ & _ & Ht & Hn).
  pose proof (run_loop_accounted TIM_TP reads _ _ _ _ [] [] (reflexivity _) Hrun) as Htim.
  pose proof (run_loop_accounted NAV_TIMEUTC reads _ _ _ _ [] [] (reflexivity _) Hrun) as Hnav.
  simpl in Htim, Hnav. rewrite Ht in Htim. rewrite Hn in Hnav.
  split; [by rewrite Htim, <-app_assoc | by rewrite Hnav, <-app_assoc].
Qed.

(** On [sample_reads]: the first TIM-TP is overwritten, the second merges
    with the first NAV-TIMEUTC, the second NAV-TIMEUTC goes to its table
    alone, and the last TIM-TP waits. *)
Lemma sample_reads_run :
  run_loop initial_cache (empty_df_refs sample_schema) sample_reads
  = ({| df_NAV_TIMEUTC :=
          df_append (df_append (create_empty_df sample_schema "NAV-TIMEUTC")
                       (nav_timeutc_data 500000 sample_nav_timeutc))
            (nav_timeutc_data 700000 sample_nav_timeutc);
        df_TIM_TP :=
          df_append (create_empty_df sample_schema "TIM-TP")
            (tim_tp_data 100000 sample_tim_tp);
        df_MERGED :=
          df_append (create_empty_df sample_schema "MERGED")
            (merge_data (tim_tp_data 100000 sample_tim_tp)
               (nav_timeutc_data 500000 sample_nav_timeutc)) |},
     Ok {| pc_NAV_TIMEUTC :=
             {| valid := false; timestamp := Some 700000;
                parsed_data := Some (nav_timeutc_data 700000 sample_nav_timeutc) |};
           pc_TIM_TP :=
             {| valid := true; timestamp := Some 3000000;
                parsed_data := Some (tim_tp_data 3000000 sample_tim_tp) |} |}).
Proof. vm_compute. reflexivity. Qed.

Lemma C2_witness :
  ∃ df_refs packet_cache,
    run_loop initial_cache (empty_df_refs sample_schema) sample_reads
      = (df_refs, Ok packet_cache) ∧
    ∃ merged_tim merged_nav fallback_tim fallback_nav,
      paired_off df_refs merged_tim merged_nav fallback_tim fallback_nav ∧
      channel_records TIM_TP sample_reads ≡ₚ
        merged_tim ++ fallback_tim ++ pending (pc_TIM_TP packet_cache) ++
        overwritten TIM_TP initial_cache (empty_df_refs sample_schema) sample_reads ∧
      channel_records NAV_TIMEUTC sample_reads ≡ₚ
        merged_nav ++ fallback_nav ++ pending (pc_NAV_TIMEUTC packet_cache) ++
        overwritten NAV_TIMEUTC initial_cache (empty_df_refs sample_schema) sample_reads.
Proof.
  eexists _, _. split; [exact sample_reads_run|].
  exact (C2_every_record_in_one_place sample_schema sample_reads _ _ sample_reads_run).
Defined.

(** TIM-TP at 0.0 s, NAV-TIMEUTC at 0.5 s, TIM-TP at 0.6 s. *)
Lemma sample_merge_then_tim_tp_run :
  run_loop initial_cache (empty_df_refs sample_schema)
    [(Some sample_tim_tp, 0); (Some sample_nav_timeutc, 500000); (Some sample_tim_tp, 600000)]
  = ({| df_NAV_TIMEUTC :=
          df_append (create_empty_df sample_schema "NAV-TIMEUTC")
            (nav_timeutc_data 500000 sample_nav_timeutc);
        df_TIM_TP :=
          df_append (create_empty_df sample_schema "TIM-TP") (tim_tp_data 0 sample_tim_tp);
        df_MERGED :=
          df_append (create_empty_df sample_schema "MERGED")
            (merge_data (tim_tp_data 0 sample_tim_tp)
               (nav_timeutc_data 500000 sample_nav_timeutc)) |},
     Ok {| pc_NAV_TIMEUTC :=
             {| valid := false; timestamp := Some 500000;
                parsed_data := Some (nav_timeutc_data 500000 sample_nav_timeutc) |};
           pc_TIM_TP :=
             {| valid := true; timestamp := Some 600000;
                parsed_data := Some (tim_tp_data 600000 sample_tim_tp) |} |}).
Proof. vm_compute. reflexivity. Qed.

Lemma tim_tp_data_timestamp (t : datetime) (m : UBXMessage) :
  tim_tp_data t m !! "pkt_unix_timestamp_TIM-TP" = Some (VDatetime t).
Proof. reflexivity. Qed.

(** The claim as worded fails on this run in two ways.  The first TIM-TP
    record is a row of the TIM-TP table and is also part of the merged
    row.  And the last TIM-TP record is in none of the three places of the
    claim when the sequence ends: it waits in the cache, it is no row of
    the TIM-TP table, it is part of no merged row, and no record was
    overwritten. *)
Lemma C2_counterexample :
  let reads :=
    [(Some sample_tim_tp, 0); (Some sample_nav_timeutc, 500000);
     (Some sample_tim_tp, 600000)] in
  ∃ df_refs packet_cache,
    run_loop initial_cache (empty_df_refs sample_schema) reads = (df_refs, Ok packet_cache) ∧
    ¬ (∀ d : row, ¬ persisted_twice df_refs d) ∧
    pending (pc_TIM_TP packet_cache) = [tim_tp_data 600000 sample_tim_tp] ∧
    (tim_tp_data 600000 sample_tim_tp ∉ rows (df_TIM_TP df_refs)) ∧
    (∀ merged_data, merged_data ∈ rows (df_MERGED df_refs) →
       ¬ (tim_tp_data 600000 sample_tim_tp ⊆ merged_data)) ∧
    overwritten TIM_TP initial_cache (empty_df_refs sample_schema) reads = [].
Proof.
  intros reads. eexists _, _. split; [exact sample_merge_then_tim_tp_run|].
  split_and!.
  - intros Hnever. apply (Hnever (tim_tp_data 0 sample_tim_tp)). split.
    + left. apply list_elem_of_here.
    + eexists. split; [apply list_elem_of_here|].
      apply map_union_subseteq_r, data_disjoint.
  - reflexivity.
  - simpl. intros Heq%list_elem_of_singleton.
    apply (f_equal (λ d : row, d !! "pkt_unix_timestamp_TIM-TP")) in Heq.
    by rewrite !tim_tp_data_timestamp in Heq.
  - simpl. intros merged_data ->%list_elem_of_singleton Hsub.
    pose proof (lookup_weaken _ _ _ _ (tim_tp_data_timestamp 600000 sample_tim_tp) Hsub)
      as Hlook.
    unfold merge_data in Hlook. rewrite lookup_union_r in Hlook.
    + by rewrite (tim_tp_data_timestamp 0) in Hlook.
    + apply not_elem_of_dom. rewrite dom_nav_timeutc_data.
      apply (bool_decide_eq_true_1 (_ ∉ _)). by vm_compute.
  - vm_compute. reflexivity.
Qed.

(** ** The dataflow check *)

Lemma seen_0 (stream : nat → option UBXMessage) (id : string) : ¬ seen stream id 0.
Proof. intros (i & m & Hi & _). lia. Qed.

Lemma seen_S (stream : nat → option UBXMessage) (id : string) (n : nat) :
  seen stream id (S n) ↔
  seen stream id n ∨ ∃ m, stream n = Some m ∧ identity m = id.
Proof.
  split.
  - intros (i & m & Hi & Hs & Hid).
    destruct (decide (i = n)) as [->|]; [right; eauto|].
    left. exists i, m. split_and!; [lia|done..].
  - intros [(i & m & Hi & Hs & Hid)|(m & Hs & Hid)].
    + exists i, m. split_and!; [lia|done..].
    + exists n, m. split_and!; [lia|done..].
Qed.

Lemma seen_step (stream : nat → option UBXMessage) (id : string) (i : nat) (b : bool) :
  (b = true ↔ seen stream id i) →
  b || match stream i with
       | Some m => bool_decide (identity m = id)
       | None => false
       end = true ↔ seen stream id (S i).
Proof.
  intros Hb. rewrite seen_S, orb_true_iff, Hb.
  destruct (stream i) as [m|].
  - rewrite bool_decide_eq_true. split.
    + intros [?|?]; [by left|right; by exists m].
    + intros [?|(m' & [= <-] & ?)]; [by left|by right].
  - split.
    + intros [?|?]; [by left|done].
    + intros [?|(m' & ? & ?)]; [by left|done].
Qed.

Lemma flags_of_inserts (nav tim : bool) :
  flags_of nav tim = <["NAV-TIMEUTC" := nav]> (<["TIM-TP" := tim]> ∅).
Proof. reflexivity. Qed.

(** The flag of the packet's identity is raised, if it has one. *)
Lemma mark_identity_flags (nav tim : bool) (m : UBXMessage) :
  mark_identity (flags_of nav tim) m =
    flags_of (nav || bool_decide (identity m = "NAV-TIMEUTC"))
             (tim || bool_decide (identity m = "TIM-TP")).
Proof.
  unfold mark_identity. rewrite !flags_of_inserts.
  destruct (decide (identity m = "NAV-TIMEUTC")) as [Hnav|Hnav].
  - rewrite Hnav. rewrite lookup_insert_eq, decide_True by eauto.
    rewrite insert_insert_eq.
    rewrite bool_decide_eq_true_2 by done.
    rewrite (bool_decide_eq_false_2 ("NAV-TIMEUTC" = "TIM-TP")) by done.
    by rewrite !orb_true_r, orb_false_r.
  - rewrite (bool_decide_eq_false_2 (identity m = "NAV-TIMEUTC")), orb_false_r by done.
    rewrite lookup_insert_ne by done.
    destruct (decide (identity m = "TIM-TP")) as [Htim|Htim].
    + rewrite Htim. rewrite lookup_insert_eq, decide_True by eauto.
      rewrite bool_decide_eq_true_2, orb_true_r by done.
      rewrite (insert_insert_ne _ "TIM-TP" "NAV-TIMEUTC") by done.
      by rewrite insert_insert_eq.
    + rewrite lookup_insert_ne, lookup_empty by done.
      rewrite decide_False by (by intros [??]).
      by rewrite bool_decide_eq_false_2, orb_false_r by done.
Qed.

Lemma all_flags_flags (nav tim : bool) : all_flags (flags_of nav tim) = nav && tim.
Proof. by destruct nav, tim; vm_compute. Qed.

(** The loop, entered at read [i] with flags that tell what was seen among
    the first [i] reads, both identities not having been seen yet. *)
Lemma verify_loop_spec (stream : nat → option UBXMessage) (n : nat) :
  ∀ (i : nat) (nav tim : bool),
  (nav = true ↔ seen stream "NAV-TIMEUTC" i) →
  (tim = true ↔ seen stream "TIM-TP" i) →
  (∀ j, (j ≤ i)%nat → ¬ both_seen stream j) →
  match verify_loop stream n i (flags_of nav tim) with
  | Ok k =>
    (i < k ≤ i + n)%nat ∧ both_seen stream k ∧ ∀ j, (j < k)%nat → ¬ both_seen stream j
  | Raise e =>
    ¬ both_seen stream (i + n) ∧
    ∃ nav' tim', e = Exception (flags_of nav' tim') ∧
      (nav' = true ↔ seen stream "NAV-TIMEUTC" (i + n)) ∧
      (tim' = true ↔ seen stream "TIM-TP" (i + n))
  end.
Proof.
  induction n as [|n IH]; intros i nav tim Hnav Htim Hnot; simpl.
  - rewrite Nat.add_0_r. split; [by apply Hnot|]. by exists nav, tim.
  - set (nav' := nav || match stream i with
                        | Some m => bool_decide (identity m = "NAV-TIMEUTC")
                        | None => false end).
    set (tim' := tim || match stream i with
                        | Some m => bool_decide (identity m = "TIM-TP")
                        | None => false end).
    assert (match stream i with
            | Some parsed => mark_identity (flags_of nav tim) parsed
            | None => flags_of nav tim
            end = flags_of nav' tim') as ->.
    { subst nav' tim'. destruct (stream i) as [m|].
      - apply mark_identity_flags.
      - by rewrite !orb_false_r. }
    assert (nav' = true ↔ seen stream "NAV-TIMEUTC" (S i)) as Hnav'.
    { by apply seen_step. }
    assert (tim' = true ↔ seen stream "TIM-TP" (S i)) as Htim'.
    { by apply seen_step. }
    rewrite all_flags_flags.
    destruct (nav' && tim') eqn:Hall.
    + apply andb_true_iff in Hall as [Hn Ht].
      split; [lia|]. split; [split; [by apply Hnav' | by apply Htim']|].
      intros j Hj. apply Hnot. lia.
    + assert (∀ j, (j ≤ S i)%nat → ¬ both_seen stream j) as Hnot'.
      { intros j Hj. destruct (decide (j = S i)) as [->|]; [|apply Hnot; lia].
        intros [Hn%Hnav' Ht%Htim']. by rewrite Hn, Ht in Hall. }
      specialize (IH (S i) nav' tim' Hnav' Htim' Hnot').
      replace (i + S n)%nat with (S i + n)%nat by lia.
      destruct (verify_loop stream n (S i) (flags_of nav' tim')) as [k|e]; [|done].
      destruct IH as (Hk & ? & ?). split; [lia|done].
Qed.

(** C7: the dataflow check makes at most 1000 reads.  It succeeds at the
    first read after which both TIM-TP and NAV-TIMEUTC have been seen;
    otherwise, none of the first 1000 reads having completed the pair, it
    raises with the flags that tell which identity was seen and which was
    not, and [start] ends there: no table is created and nothing is
    collected or saved. *)
Theorem C7_verify_dataflow (stream : nat → option UBXMessage) :
  match verify_dataflow stream with
  | Ok k =>
    (k ≤ 1000)%nat ∧ both_seen stream k ∧ ∀ j, (j < k)%nat → ¬ both_seen stream j
  | Raise e =>
    ¬ both_seen stream 1000 ∧
    (∃ nav tim, e = Exception (flags_of nav tim) ∧
       (nav = true ↔ seen stream "NAV-TIMEUTC" 1000) ∧
       (tim = true ↔ seen stream "TIM-TP" 1000)) ∧
    ∀ schema reads, start schema stream reads = NotStarted e
  end.
Proof.
  assert (∀ id, false = true ↔ seen stream id 0) as H0.
  { intros id. split; [done|]. by intros ?%seen_0. }
  assert (∀ j, (j ≤ 0)%nat → ¬ both_seen stream j) as Hnot.
  { intros j Hj [Hs _]. assert (j = 0%nat) as -> by lia. by apply seen_0 in Hs. }
  pose proof (verify_loop_spec stream 1000 0 false false (H0 _) (H0 _) Hnot) as Hspec.
  unfold start, verify_dataflow.
  change initial_flags with (flags_of false false).
  destruct (verify_loop stream 1000 0 (flags_of false false)) as [k|e].
  - destruct Hspec as (Hk & ? & ?). split; [lia|done].
  - destruct Hspec as (? & ?). done.
Qed.

(** A stream that only ever delivers TIM-TP: the check fails, the flags
    name NAV-TIMEUTC as missing, and [start] stops before collecting. *)
Lemma verify_dataflow_tim_tp_only (schema : string → list string) (reads : list read) :
  verify_dataflow tim_tp_only_stream = Raise (Exception (flags_of false true)) ∧
  start schema tim_tp_only_stream reads = NotStarted (Exception (flags_of false true)).
Proof.
  assert (verify_dataflow tim_tp_only_stream = Raise (Exception (flags_of false true))) as H
    by (vm_compute; reflexivity).
  split; [done|]. unfold start. by rewrite H.
Qed.

(** ** The interrupt *)

Lemma verify_dataflow_sample_stream : verify_dataflow sample_stream = Ok 2%nat.
Proof. by vm_compute. Qed.

(** TIM-TP at 0 s and NAV-TIMEUTC at 2 s: TIM-TP goes to its table, and
    NAV-TIMEUTC waits. *)
Lemma sample_late_run :
  run_loop initial_cache (empty_df_refs sample_schema)
    [(Some sample_tim_tp, 0); (Some sample_nav_timeutc, 2000000)]
  = ({| df_NAV_TIMEUTC := create_empty_df sample_schema "NAV-TIMEUTC";
        df_TIM_TP :=
          df_append (create_empty_df sample_schema "TIM-TP") (tim_tp_data 0 sample_tim_tp);
        df_MERGED := create_empty_df sample_schema "MERGED" |},
     Ok {| pc_NAV_TIMEUTC :=
             {| valid := true; timestamp := Some 2000000;
                parsed_data := Some (nav_timeutc_data 2000000 sample_nav_timeutc) |};
           pc_TIM_TP :=
             {| valid := false; timestamp := Some 0;
                parsed_data := Some (tim_tp_data 0 sample_tim_tp) |} |}).
Proof.
  cbn [run_loop].
  change (loop_body initial_cache (empty_df_refs sample_schema) (Some sample_tim_tp, 0))
    with (empty_df_refs sample_schema,
          Ok (cache_packet initial_cache (Some sample_tim_tp) 0)).
  cbn beta iota. unfold loop_body.
  rewrite (correlate_tim_tp_earlier _ _ 0 2000000 (tim_tp_data 0 sample_tim_tp));
    [done | reflexivity.. | | lia].
  rewrite microsec_time_diff_mod_day. by vm_compute.
Qed.

(** C3 as the code has it: when the dataflow check has passed and the
    interrupt arrives after the reads [reads], the tables given to
    [save_data] are the tables as the last complete pass through the loop
    body left them, whatever waits in the cache: the waiting record is
    written to no table, Merged or other. *)
Theorem C3_pending_record_not_flushed (schema : string → list string)
    (stream : nat → option UBXMessage) (reads : list read) (k : nat)
    (df_refs : DfRefs) (packet_cache : PacketCache) :
  verify_dataflow stream = Ok k →
  run_loop initial_cache (empty_df_refs schema) reads = (df_refs, Ok packet_cache) →
  start schema stream reads = Saved df_refs None.
Proof.
  intros Hverify Hrun. unfold start, collect_data. by rewrite Hverify, Hrun.
Qed.

Lemma C3_witness :
  let reads := [(Some sample_tim_tp, 0); (Some sample_nav_timeutc, 2000000)] in
  ∃ df_refs packet_cache,
    run_loop initial_cache (empty_df_refs sample_schema) reads = (df_refs, Ok packet_cache) ∧
    pending (pc_NAV_TIMEUTC packet_cache) = [nav_timeutc_data 2000000 sample_nav_timeutc] ∧
    rows (df_NAV_TIMEUTC df_refs) = [] ∧
    start sample_schema sample_stream reads = Saved df_refs None.
Proof.
  intros reads. eexists _, _.
  split; [exact sample_late_run|].
  split; [reflexivity|].
  split; [reflexivity|].
  exact (C3_pending_record_not_flushed sample_schema sample_stream reads 2%nat _ _
           verify_dataflow_sample_stream sample_late_run).
Defined.

(** The claim as worded fails: a single TIM-TP packet is read, it waits in
    its cache entry while the other entry is empty, the interrupt arrives,
    and the TIM-TP table that is saved has no row for it. *)
Lemma C3_counterexample :
  let reads := [(Some sample_tim_tp, 0)] in
  ∃ df_refs packet_cache saved,
    run_loop initial_cache (empty_df_refs sample_schema) reads = (df_refs, Ok packet_cache) ∧
    pending (pc_TIM_TP packet_cache) = [tim_tp_data 0 sample_tim_tp] ∧
    pending (pc_NAV_TIMEUTC packet_cache) = [] ∧
    start sample_schema sample_stream reads = Saved saved None ∧
    tim_tp_data 0 sample_tim_tp ∉ rows (df_TIM_TP saved).
Proof.
  intros reads.
  exists (empty_df_refs sample_schema), (cache_packet initial_cache (Some sample_tim_tp) 0),
    (empty_df_refs sample_schema).
  split_and!.
  - reflexivity.
  - reflexivity.
  - reflexivity.
  - unfold start. rewrite verify_dataflow_sample_stream. reflexivity.
  - apply not_elem_of_nil.
Qed.

(** ** What the loop reads of a packet *)








(** * Further properties of the loop *)

(** ** Reasoning along a run *)


(** ** What the cache holds *)








(** ** The window test, as computed *)





(** ** The keys of a merged row *)


(** ** How a run can end *)







(** ** The schema of the Merged table *)





(** ** The rows of the Merged table *)




(** ** The tables only grow *)









(** ** The rows of a channel keep the order of arrival *)





(** ** A record is written once *)



Lemma same_live_invalidate (e1 e2 : CacheEntry) :
  same_live_entry (invalidate e1) (invalidate e2).
Proof. by split. Qed.





(** ** Reads that carry nothing of interest *)




(** ** The dataflow check needs two packets *)



